(** * Snake game headers: constants.h and structures.h

  The two headers of the ARM64/macOS snake game declare the game's
  constants and the records its engine works on.  This development
  embeds both: every [#define] becomes a definition of the same name,
  every [struct] becomes a record of the same name together with a
  description of its declaration (field names and C types, in order),
  and the properties the design document states about them are proved
  on these definitions. *)

From Stdlib Require Import Ascii.
From stdpp Require Import gmap strings list vector.

Local Open Scope string_scope.
Local Open Scope Z_scope.

(** ** constants.h *)

Module Constants.

(** Game configuration. *)
Definition BOARD_WIDTH : Z := 80.
Definition BOARD_HEIGHT : Z := 25.
Definition INITIAL_SPEED : Z := 200.
Definition SPEED_ACCEL : Z := 5.
Definition INITIAL_LENGTH : Z := 3.

(** Game characters ([char] literals). *)
Definition SNAKE_HEAD : ascii := "O"%char.
Definition SNAKE_BODY : ascii := "o"%char.
Definition FOOD_CHAR : ascii := "*"%char.
Definition WALL_CHAR : ascii := "#"%char.
Definition EMPTY_CHAR : ascii := " "%char.

(** Directions. *)
Definition DIR_UP : Z := 0.
Definition DIR_DOWN : Z := 1.
Definition DIR_LEFT : Z := 2.
Definition DIR_RIGHT : Z := 3.

(** Game states. *)
Definition STATE_MENU : Z := 0.
Definition STATE_PLAYING : Z := 1.
Definition STATE_PAUSED : Z := 2.
Definition STATE_GAME_OVER : Z := 3.
Definition STATE_EXIT : Z := 4.

(** Input keys. *)
Definition KEY_UP : Z := 65.
Definition KEY_DOWN : Z := 66.
Definition KEY_LEFT : Z := 68.
Definition KEY_RIGHT : Z := 67.
Definition KEY_SPACE : Z := 32.
Definition KEY_Q : Z := 113.
Definition KEY_ESC : Z := 27.

(** Memory sizes. *)
Definition STACK_SIZE : Z := 8192.
Definition HEAP_SIZE : Z := 4096.
Definition BUFFER_SIZE : Z := 8192.

(** System call numbers (macOS ARM64). *)
Definition SYS_READ : Z := 3.
Definition SYS_WRITE : Z := 4.
Definition SYS_NANOSLEEP : Z := 240.
Definition SYS_IOCTL : Z := 54.

(** File descriptors. *)
Definition STDIN : Z := 0.
Definition STDOUT : Z := 1.
Definition STDERR : Z := 2.

(** The octal escape [\033] of the C string literals: byte 27. *)
Definition ESC : ascii := "027"%char.

(** ANSI color codes: the C literal ["\033[31m"] is the byte 033
    followed by the characters [[31m]. *)
Definition COLOR_RESET : string := String ESC "[0m".
Definition COLOR_RED : string := String ESC "[31m".
Definition COLOR_GREEN : string := String ESC "[32m".
Definition COLOR_YELLOW : string := String ESC "[33m".
Definition COLOR_BLUE : string := String ESC "[34m".
Definition COLOR_MAGENTA : string := String ESC "[35m".
Definition COLOR_CYAN : string := String ESC "[36m".
Definition COLOR_WHITE : string := String ESC "[37m".

End Constants.

(** ** Bytes and terminal sequences *)

Module Terminal.
Import Constants.

(** The byte code of a character, as the integer a [read] delivers. *)
Definition byte_code (c : ascii) : Z := Z.of_N (N_of_ascii c).

(** Last character of a string, if any. *)
Fixpoint final_byte (s : string) : option ascii :=
  match s with
  | EmptyString => None
  | String c EmptyString => Some c
  | String _ rest => final_byte rest
  end.

(** An ANSI escape sequence of the kind the color codes are: the
    escape byte 0x1B, an opening bracket, a body, and the final
    character [m]. *)
Definition ansi_escape_sequence (s : string) : Prop :=
  exists body : string, s = String ESC (String "[" (body +:+ "m")).

(** The sequences an ANSI (VT100, ECMA-48) terminal sends for the
    cursor keys: ESC [ A (up), ESC [ B (down), ESC [ C (right) and
    ESC [ D (left).  The headers do not spell them out; they are the
    terminal's side of the interface the key constants refer to. *)
Inductive arrow := ArrowUp | ArrowDown | ArrowRight | ArrowLeft.

Definition arrow_sequence (a : arrow) : string :=
  match a with
  | ArrowUp => String ESC "[A"
  | ArrowDown => String ESC "[B"
  | ArrowRight => String ESC "[C"
  | ArrowLeft => String ESC "[D"
  end.

(** The key constant the header gives to each arrow. *)
Definition arrow_key (a : arrow) : Z :=
  match a with
  | ArrowUp => KEY_UP
  | ArrowDown => KEY_DOWN
  | ArrowRight => KEY_RIGHT
  | ArrowLeft => KEY_LEFT
  end.

End Terminal.

(** ** What the direction and state codes stand for *)

Module Meaning.
Import Constants.

(** The four directions and the five game states the header names,
    each with the code its [#define] gives it. *)
Inductive direction_name := Up | Down | Left | Right.

Definition direction_code (d : direction_name) : Z :=
  match d with
  | Up => DIR_UP
  | Down => DIR_DOWN
  | Left => DIR_LEFT
  | Right => DIR_RIGHT
  end.

Inductive state_name := Menu | Playing | Paused | GameOver | Exit.

Definition state_code (s : state_name) : Z :=
  match s with
  | Menu => STATE_MENU
  | Playing => STATE_PLAYING
  | Paused => STATE_PAUSED
  | GameOver => STATE_GAME_OVER
  | Exit => STATE_EXIT
  end.

(** Reading a stored [direction] or [state] field back. *)
Definition direction_of (v : Z) : option direction_name :=
  List.find (fun d => bool_decide (direction_code d = v)) [Up; Down; Left; Right].

Definition state_of (v : Z) : option state_name :=
  List.find (fun s => bool_decide (state_code s = v))
    [Menu; Playing; Paused; GameOver; Exit].

End Meaning.

(** ** The C types the declarations use *)

Module CType.

(** The types that occur in structures.h.  An array type carries its
    element type and its number of elements, so
    [char board[BOARD_HEIGHT][BOARD_WIDTH]] is an array of
    [BOARD_HEIGHT] arrays of [BOARD_WIDTH] [char]. *)
Inductive ctype : Type :=
| Tint
| Tchar
| Tlonglong
| Tptr_void
| Tptr_struct (tag : string)
| Tarray (elt : ctype) (len : Z).

(** One member of a struct, and a struct declaration: the members in
    the order they are written. *)
Record field : Type := Field { f_name : string; f_type : ctype }.

Record struct_decl : Type :=
  Struct { s_tag : string; s_fields : list field }.

#[global] Instance ctype_eq_dec : EqDecision ctype.
Proof. solve_decision. Defined.

(** The type of the member called [name], if the struct has one. *)
Definition field_type (d : struct_decl) (name : string) : option ctype :=
  f_type <$> List.find (fun f => bool_decide (f_name f = name)) (s_fields d).

(** Members that point to a record tagged [tag]: the links of a
    linked structure. *)
Definition links_to (tag : string) (d : struct_decl) : list string :=
  f_name <$> List.filter
    (fun f => bool_decide (f_type f = Tptr_struct tag)) (s_fields d).

(** Members of each kind. *)
Definition fields_of_type (t : ctype) (d : struct_decl) : list string :=
  f_name <$> List.filter (fun f => bool_decide (f_type f = t)) (s_fields d).

(** Number of scalar cells of a type: the product of the array
    dimensions. *)
Fixpoint cells (t : ctype) : Z :=
  match t with
  | Tarray elt len => len * cells elt
  | _ => 1
  end.

End CType.

(** ** structures.h *)

Module Structures.
Import Constants CType.

(** Pointers are addresses; the null pointer is address 0. *)
Abbreviation ptr := Z (only parsing).
Definition NULL : ptr := 0.

(** *** The declarations, member by member *)

Definition SnakeNode_decl : struct_decl :=
  Struct "SnakeNode"
    [ Field "x" Tint;
      Field "y" Tint;
      Field "next" (Tptr_struct "SnakeNode") ].

Definition GameState_decl : struct_decl :=
  Struct "GameState"
    [ Field "state" Tint;
      Field "score" Tint;
      Field "direction" Tint;
      Field "speed" Tint;
      Field "paused" Tint;
      Field "head" (Tptr_struct "SnakeNode");
      Field "tail" (Tptr_struct "SnakeNode");
      Field "snake_length" Tint;
      Field "food_x" Tint;
      Field "food_y" Tint;
      Field "board" (Tarray (Tarray Tchar BOARD_WIDTH) BOARD_HEIGHT) ].

Definition InputBuffer_decl : struct_decl :=
  Struct "InputBuffer"
    [ Field "buffer" (Tarray Tchar 256);
      Field "length" Tint;
      Field "position" Tint ].


Definition MemoryPool_decl : struct_decl :=
  Struct "MemoryPool"
    [ Field "pool_start" Tptr_void;
      Field "pool_end" Tptr_void;
      Field "current" Tptr_void;
      Field "available" Tint ].

(** *** The records

    Integers are [Z], pointers are addresses, a [char] is an 8-bit
    character and an array of [n] elements is a vector of length
    [n]. *)

Record SnakeNode : Type := {
  x : Z;                      (* X coordinate *)
  y : Z;                      (* Y coordinate *)
  next : ptr                  (* pointer to next segment *)
}.

Record GameState : Type := {
  state : Z;                  (* current game state *)
  score : Z;                  (* current score *)
  direction : Z;              (* current direction *)
  speed : Z;                  (* current speed (ms) *)
  paused : Z;                 (* pause flag *)
  head : ptr;                 (* snake head pointer *)
  tail : ptr;                 (* snake tail pointer *)
  snake_length : Z;           (* current snake length *)
  food_x : Z;                 (* food X coordinate *)
  food_y : Z;                 (* food Y coordinate *)
  board : vec (vec ascii (Z.to_nat BOARD_WIDTH)) (Z.to_nat BOARD_HEIGHT)
}.

Record InputBuffer : Type := {
  buffer : vec ascii 256;     (* input buffer *)
  length : Z;                 (* buffer length *)
  position : Z                (* current position *)
}.


Record MemoryPool : Type := {
  pool_start : ptr;           (* start of memory pool *)
  pool_end : ptr;             (* end of memory pool *)
  current : ptr;              (* current allocation pointer *)
  available : Z               (* available bytes *)
}.

(** An input buffer before the first read: all bytes zero. *)
Definition empty_input_buffer : InputBuffer :=
  {| buffer := vreplicate 256 "000"%char; length := 0; position := 0 |}.

End Structures.

(** ** The snake as a linked list in memory *)

Module Snake.
Import Constants Structures.

(** The store holds the allocated [SnakeNode] records by address.
    Reading through the null pointer is not a valid access. *)
Definition load (h : gmap Z SnakeNode) (p : Z) : option SnakeNode :=
  if decide (p = NULL) then None else h !! p.

(** [chain h tl p ns]: following [next] links from the node at [p]
    reaches the node at [tl], and [ns] are the records met on the way,
    both ends included. *)
Inductive chain (h : gmap Z SnakeNode) (tl : Z) : Z -> list SnakeNode -> Prop :=
| chain_tail n :
    load h tl = Some n ->
    chain h tl tl [n]
| chain_next p n ns :
    p <> tl ->
    load h p = Some n ->
    chain h tl (next n) ns ->
    chain h tl p (n :: ns).

(** The snake of a head and a tail reference: no node when both are
    null, the chain from head to tail otherwise. *)
Definition snake (h : gmap Z SnakeNode) (hd tl : Z) (ns : list SnakeNode) : Prop :=
  (hd = NULL /\ tl = NULL /\ ns = []) \/ chain h tl hd ns.

(** The same traversal as a loop: start at [p], collect the node,
    stop at the tail, otherwise move to [next]; [fuel] bounds the
    number of nodes visited. *)
Fixpoint walk (fuel : nat) (h : gmap Z SnakeNode) (tl p : Z) : option (list SnakeNode) :=
  match fuel with
  | O => None
  | S k =>
      match load h p with
      | None => None
      | Some n =>
          if decide (p = tl) then Some [n]
          else match walk k h tl (next n) with
               | Some ns => Some (n :: ns)
               | None => None
               end
      end
  end.

(** A chain never visits a record twice, so the number of allocated
    records is fuel enough. *)
Definition snake_nodes (h : gmap Z SnakeNode) (hd tl : Z) : option (list SnakeNode) :=
  if decide (hd = NULL /\ tl = NULL) then Some []
  else walk (size h) h tl hd.

(** The board cell a node occupies. *)
Definition cell (n : SnakeNode) : Z * Z := (x n, y n).

Definition in_bounds (n : SnakeNode) : bool :=
  (0 <=? x n) && (x n <? BOARD_WIDTH) && (0 <=? y n) && (y n <? BOARD_HEIGHT).

(** The position of a node's cell in the board read row by row. *)
Definition cell_index (n : SnakeNode) : nat :=
  Z.to_nat (y n * BOARD_WIDTH + x n).

(** Modelled from the spec: the code that builds and moves the snake is
    not among the headers, so the invariant of the snake is taken from
    the data model's words, "all coordinates are within board bounds
    and no two nodes occupy the same cell", over the chain from head to
    tail. *)
Definition snake_invariant (h : gmap Z SnakeNode) (hd tl : Z) : bool :=
  match snake_nodes h hd tl with
  | Some ns => forallb in_bounds ns && bool_decide (NoDup (cell <$> ns))
  | None => false
  end.

(** Modelled from the spec: the code that maintains the game state is
    not among the headers, so its invariant is taken from the data
    model's words, "snake_length equals the count of nodes from head to
    tail; food coordinate never coincides with a snake cell". *)
Definition GameState_invariant (h : gmap Z SnakeNode) (g : GameState) : bool :=
  match snake_nodes h (head g) (tail g) with
  | Some ns =>
      bool_decide (snake_length g = Z.of_nat (List.length ns))
      && forallb (fun n => negb (bool_decide (cell n = (food_x g, food_y g)))) ns
  | None => false
  end.

(** A snake of [INITIAL_LENGTH] segments lying on row 12, head at
    column 40, and a state that refers to it. *)
Definition initial_heap : gmap Z SnakeNode :=
  <[ 4096 := {| x := 40; y := 12; next := 4112 |} ]>
  (<[ 4112 := {| x := 39; y := 12; next := 4128 |} ]>
  (<[ 4128 := {| x := 38; y := 12; next := NULL |} ]> ∅)).

Definition initial_state : GameState :=
  {| state := STATE_PLAYING; score := 0; direction := DIR_RIGHT;
     speed := INITIAL_SPEED; paused := 0;
     head := 4096; tail := 4128; snake_length := INITIAL_LENGTH;
     food_x := 60; food_y := 5;
     board := vreplicate _ (vreplicate _ EMPTY_CHAR) |}.

End Snake.

(** ** The names behind the key, character and color constants *)

Module Codes.
Import Constants Terminal.

(** The seven keys of the "Input Keys" block, each with its
    [#define]. *)
Inductive key_name :=
| KeyUp | KeyDown | KeyLeft | KeyRight | KeySpace | KeyQ | KeyEsc.

Definition key_code (k : key_name) : Z :=
  match k with
  | KeyUp => KEY_UP
  | KeyDown => KEY_DOWN
  | KeyLeft => KEY_LEFT
  | KeyRight => KEY_RIGHT
  | KeySpace => KEY_SPACE
  | KeyQ => KEY_Q
  | KeyEsc => KEY_ESC
  end.

(** The five kinds of board cell of the "Game Characters" block, each
    with the character that draws it. *)
Inductive cell_kind :=
| HeadCell | BodyCell | FoodCell | WallCell | EmptyCell.

Definition cell_char (k : cell_kind) : ascii :=
  match k with
  | HeadCell => SNAKE_HEAD
  | BodyCell => SNAKE_BODY
  | FoodCell => FOOD_CHAR
  | WallCell => WALL_CHAR
  | EmptyCell => EMPTY_CHAR
  end.

(** The eight colors of the "ANSI Color Codes" block, each with its
    string. *)
Inductive color_name :=
| ColorReset | ColorRed | ColorGreen | ColorYellow
| ColorBlue | ColorMagenta | ColorCyan | ColorWhite.

Definition color_sequence (c : color_name) : string :=
  match c with
  | ColorReset => COLOR_RESET
  | ColorRed => COLOR_RED
  | ColorGreen => COLOR_GREEN
  | ColorYellow => COLOR_YELLOW
  | ColorBlue => COLOR_BLUE
  | ColorMagenta => COLOR_MAGENTA
  | ColorCyan => COLOR_CYAN
  | ColorWhite => COLOR_WHITE
  end.

(** Printable ASCII: space to tilde, one terminal column each. *)
Definition printable (c : ascii) : bool :=
  (32 <=? byte_code c) && (byte_code c <=? 126).

(** A decimal digit. *)
Definition is_digit (c : ascii) : bool :=
  (byte_code "0" <=? byte_code c) && (byte_code c <=? byte_code "9").

End Codes.

(** ** Reading the board *)

Module Board.
Import Constants Structures.

(** [board[cy][cx]]: the rows are the first dimension of
    [char board[BOARD_HEIGHT][BOARD_WIDTH]], the columns the second.
    An index outside the array has no cell. *)
Definition board_cell (g : GameState) (cx cy : Z) : option ascii :=
  if (0 <=? cx) && (0 <=? cy) then
    match vec_to_list (board g) !! Z.to_nat cy with
    | Some row => vec_to_list row !! Z.to_nat cx
    | None => None
    end
  else None.

End Board.

(** ** What the header says the timer's members measure *)

Module Documentation.
Import CType Structures.


(** [mentions word text]: [word] occurs in [text]. *)
Definition mentions (word text : string) : bool :=
  match String.index 0 word text with
  | Some _ => true
  | None => false
  end.

(** A member is documented as a target when its name begins with
    [target] or its comment says target. *)
Definition documented_target (m : string * string) : bool :=
  String.prefix "target" m.1 || mentions "Target" m.2 || mentions "target" m.2.

(** A member measures time when its comment gives it a unit of time;
    the header's unit of time is the nanosecond (and the millisecond,
    for the speed). *)
Definition measures_time (m : string * string) : bool :=
  mentions "nanoseconds" m.2 || mentions "milliseconds" m.2
  || mentions "(ms)" m.2.


(** A documented record tracks a target frame duration when one of its
    members is documented as a target and measures time. *)
Definition tracks_target_duration (ms : list (string * string)) : Prop :=
  exists m, m ∈ ms /\ documented_target m = true /\ measures_time m = true.

End Documentation.

(** * Properties *)

Import Constants Terminal Meaning CType Structures Snake Documentation.

(** ** The traversal *)

Section Traversal.
Variable h : gmap Z SnakeNode.
Variable tl : Z.

Lemma load_Some p n : load h p = Some n -> p <> NULL /\ h !! p = Some n.
Proof. unfold load. case_decide; [discriminate | auto]. Qed.

Lemma load_NULL : load h NULL = None.
Proof. unfold load. case_decide; congruence. Qed.

Lemma chain_nonempty p ns : chain h tl p ns -> ns <> [].
Proof. destruct 1; discriminate. Qed.

Lemma chain_not_NULL p ns : chain h tl p ns -> p <> NULL.
Proof.
  destruct 1 as [n Hn | p n ns _ Hn _]; apply load_Some in Hn; tauto.
Qed.

(** Following links is a function of the store: one head and one tail
    determine the chain. *)
Lemma chain_deterministic p ns1 ns2 :
  chain h tl p ns1 -> chain h tl p ns2 -> ns1 = ns2.
Proof.
  intros H1. revert ns2.
  induction H1 as [n Hn | p n ns Hp Hn _ IH]; intros ns2 H2.
  - inversion H2; subst; congruence.
  - inversion H2 as [m Hm | q m ms Hq Hm Hms]; subst; [congruence |].
    assert (m = n) by congruence. subst m.
    f_equal. now apply IH.
Qed.

Lemma walk_sound k : forall p ns, walk k h tl p = Some ns -> chain h tl p ns.
Proof.
  induction k as [| k IH]; intros p ns; simpl; [discriminate |].
  destruct (load h p) as [n |] eqn:Hn; [| discriminate].
  case_decide as Hp.
  - intros [= <-]. subst p. now constructor.
  - destruct (walk k h tl (next n)) as [ms |] eqn:Hw; [| discriminate].
    intros [= <-]. constructor; auto.
Qed.

Lemma walk_enough p ns :
  chain h tl p ns -> forall k, (List.length ns <= k)%nat -> walk k h tl p = Some ns.
Proof.
  induction 1 as [n Hn | p n ns Hp Hn _ IH]; intros [| k] Hk; simpl in *; try lia.
  - rewrite Hn. case_decide; congruence.
  - rewrite Hn. case_decide; [congruence |].
    rewrite IH by lia. reflexivity.
Qed.

End Traversal.

(** A record that no chain from [q] passes through can be removed from
    the store without changing that chain. *)
Lemma chain_delete h tl q ns :
  chain h tl q ns ->
  forall p, (forall ms, chain h tl p ms -> (List.length ns < List.length ms)%nat) ->
  chain (delete p h) tl q ns.
Proof.
  induction 1 as [n Hn | q n ns Hq Hn Hns IH]; intros p Hp.
  - assert (p <> tl).
    { intros ->. specialize (Hp [n] (chain_tail _ _ _ Hn)). simpl in Hp. lia. }
    constructor. apply load_Some in Hn as [? ?].
    unfold load. case_decide; [tauto |]. now rewrite lookup_delete_ne.
  - assert (p <> q).
    { intros ->. specialize (Hp (n :: ns) (chain_next _ _ _ _ _ Hq Hn Hns)). lia. }
    apply chain_next; auto.
    + apply load_Some in Hn as [? ?].
      unfold load. case_decide; [tauto |]. now rewrite lookup_delete_ne.
    + apply IH. intros ms Hms. specialize (Hp ms Hms). simpl in Hp. lia.
Qed.

Lemma size_delete_Some (h : gmap Z SnakeNode) p n :
  h !! p = Some n -> size h = S (size (delete p h)).
Proof.
  intros Hp. rewrite <- (insert_delete_id h p n Hp) at 1.
  apply map_size_insert_None, lookup_delete_eq.
Qed.

(** A chain has at most as many nodes as the store has records. *)
Lemma chain_length_le_size ns : forall h tl p,
  chain h tl p ns -> (List.length ns <= size h)%nat.
Proof.
  induction ns as [| n ns IH]; intros h tl p Hc; simpl; [lia |].
  inversion Hc as [m Hm | q m ms Hq Hm Hms]; subst.
  - apply load_Some in Hm as [_ Hm].
    rewrite (size_delete_Some _ _ _ Hm). simpl. lia.
  - assert (chain (delete p h) tl (next n) ns) as Hd.
    { apply chain_delete; [assumption |].
      intros ks Hks. rewrite (chain_deterministic _ _ _ _ _ Hks Hc). simpl. lia. }
    apply IH in Hd. apply load_Some in Hm as [_ Hm].
    rewrite (size_delete_Some _ _ _ Hm). lia.
Qed.

(** The loop computes exactly the snake of the head and tail
    references. *)
Lemma snake_nodes_spec h hd tl ns :
  snake_nodes h hd tl = Some ns <-> snake h hd tl ns.
Proof.
  unfold snake_nodes, snake. case_decide as Hnull; split.
  - intros [= <-]. left. tauto.
  - intros [(_ & _ & ->) | Hc]; [reflexivity |].
    destruct Hnull as [-> _]. now apply chain_not_NULL in Hc.
  - intros Hw. right. eapply walk_sound; eauto.
  - intros [(? & ? & _) | Hc]; [tauto |].
    apply walk_enough; [assumption |]. eapply chain_length_le_size; eauto.
Qed.

Lemma snake_deterministic h hd tl ns1 ns2 :
  snake h hd tl ns1 -> snake h hd tl ns2 -> ns1 = ns2.
Proof.
  intros H1 H2. apply snake_nodes_spec in H1, H2. congruence.
Qed.

(** ** The invariants of the data model *)

(** The checker of the game-state invariant accepts exactly the states
    whose length counter and food cell agree with the chain. *)
Lemma GameState_invariant_complete h g ns :
  snake h (head g) (tail g) ns ->
  snake_length g = Z.of_nat (List.length ns) ->
  (forall n, n ∈ ns -> (x n, y n) <> (food_x g, food_y g)) ->
  GameState_invariant h g = true.
Proof.
  intros Hs Hlen Hfood. unfold GameState_invariant.
  apply snake_nodes_spec in Hs. rewrite Hs.
  apply andb_true_intro. split.
  - now apply bool_decide_eq_true.
  - apply forallb_forall. intros n Hn.
    apply negb_true_iff, bool_decide_eq_false.
    apply Hfood. now apply list_elem_of_In.
Qed.

(** C1: in every game state that satisfies the invariant of the data
    model, [snake_length] is the number of [SnakeNode] records met when
    following [next] links from the head reference to the tail
    reference, and the food cell [(food_x, food_y)] differs from the
    cell [(x, y)] of every node on that chain. *)
Theorem GameState_invariant_length_and_food (h : gmap Z SnakeNode) (g : GameState) :
  GameState_invariant h g = true ->
  (exists ns, snake h (head g) (tail g) ns) /\
  forall ns, snake h (head g) (tail g) ns ->
    snake_length g = Z.of_nat (List.length ns) /\
    forall n, n ∈ ns -> (x n, y n) <> (food_x g, food_y g).
Proof.
  unfold GameState_invariant.
  destruct (snake_nodes h (head g) (tail g)) as [ms |] eqn:Hms; [| discriminate].
  intros [Hlen Hfood]%andb_prop. apply snake_nodes_spec in Hms.
  split; [now exists ms |].
  intros ns Hns. rewrite (snake_deterministic _ _ _ _ _ Hns Hms).
  split.
  - now apply bool_decide_eq_true in Hlen.
  - intros n Hn%list_elem_of_In.
    rewrite forallb_forall in Hfood. specialize (Hfood n Hn).
    now apply negb_true_iff, bool_decide_eq_false in Hfood.
Qed.

Lemma GameState_invariant_length_and_food_witness :
  GameState_invariant initial_heap initial_state = true /\
  (exists ns, snake initial_heap (head initial_state) (tail initial_state) ns) /\
  forall ns, snake initial_heap (head initial_state) (tail initial_state) ns ->
    snake_length initial_state = Z.of_nat (List.length ns) /\
    forall n, n ∈ ns -> (x n, y n) <> (food_x initial_state, food_y initial_state).
Proof.
  split; [vm_compute; reflexivity |].
  apply (GameState_invariant_length_and_food initial_heap initial_state).
  vm_compute; reflexivity.
Defined.

(** The record type alone does not enforce the invariant: a state whose
    counter is off by one, or whose food lies on the snake, is a value
    of [GameState] all the same. *)
Lemma GameState_invariant_not_by_type :
  GameState_invariant initial_heap
    {| state := STATE_PLAYING; score := 0; direction := DIR_RIGHT;
       speed := INITIAL_SPEED; paused := 0;
       head := 4096; tail := 4128; snake_length := 4;
       food_x := 60; food_y := 5;
       board := board initial_state |} = false /\
  GameState_invariant initial_heap
    {| state := STATE_PLAYING; score := 0; direction := DIR_RIGHT;
       speed := INITIAL_SPEED; paused := 0;
       head := 4096; tail := 4128; snake_length := 3;
       food_x := 39; food_y := 12;
       board := board initial_state |} = false.
Proof. split; vm_compute; reflexivity. Qed.

Lemma in_bounds_spec n :
  in_bounds n = true <-> 0 <= x n < 80 /\ 0 <= y n < 25.
Proof.
  unfold in_bounds, BOARD_WIDTH, BOARD_HEIGHT.
  rewrite !andb_true_iff, !Z.leb_le, !Z.ltb_lt. lia.
Qed.

(** Distinct positions of a duplicate-free list hold distinct values. *)
Lemma NoDup_cells_pairwise (ns : list SnakeNode) :
  NoDup (cell <$> ns) <->
  forall i j n m, i <> j -> ns !! i = Some n -> ns !! j = Some m ->
    (x n, y n) <> (x m, y m).
Proof.
  rewrite NoDup_alt. split.
  - intros Hnd i j n m Hij Hi Hj Heq. apply Hij.
    apply (Hnd i j (cell n)); rewrite list_lookup_fmap.
    + now rewrite Hi.
    + rewrite Hj. simpl. unfold cell. now rewrite Heq.
  - intros Hpw i j c Hi Hj. rewrite list_lookup_fmap in Hi, Hj.
    destruct (ns !! i) as [n |] eqn:Hn; [| discriminate].
    destruct (ns !! j) as [m |] eqn:Hm; [| discriminate].
    destruct (decide (i = j)) as [| Hij]; [assumption |].
    exfalso. apply (Hpw i j n m Hij Hn Hm).
    simpl in Hi, Hj. unfold cell in Hi, Hj. congruence.
Qed.

Lemma snake_invariant_complete h hd tl ns :
  snake h hd tl ns ->
  (forall n, n ∈ ns -> 0 <= x n < 80 /\ 0 <= y n < 25) ->
  (forall i j n m, i <> j -> ns !! i = Some n -> ns !! j = Some m ->
     (x n, y n) <> (x m, y m)) ->
  snake_invariant h hd tl = true.
Proof.
  intros Hs Hb Hd. unfold snake_invariant.
  apply snake_nodes_spec in Hs. rewrite Hs.
  apply andb_true_intro. split.
  - apply forallb_forall. intros n Hn. apply in_bounds_spec, Hb.
    now apply list_elem_of_In.
  - apply bool_decide_eq_true. now apply NoDup_cells_pairwise.
Qed.

(** C2: for every snake, the chain of [SnakeNode] records from head to
    tail, that satisfies the invariant of the data model, the
    coordinate of every node lies on the board ([0 <= x < 80] and
    [0 <= y < 25], the values of [BOARD_WIDTH] and [BOARD_HEIGHT]) and
    no two distinct nodes of the chain have the same [(x, y)]. *)
Theorem snake_invariant_bounds_and_distinct (h : gmap Z SnakeNode) (hd tl : Z) :
  snake_invariant h hd tl = true ->
  BOARD_WIDTH = 80 /\ BOARD_HEIGHT = 25 /\
  (exists ns, snake h hd tl ns) /\
  forall ns, snake h hd tl ns ->
    (forall n, n ∈ ns ->
       0 <= x n < BOARD_WIDTH /\ 0 <= y n < BOARD_HEIGHT) /\
    (forall i j n m, i <> j -> ns !! i = Some n -> ns !! j = Some m ->
       (x n, y n) <> (x m, y m)).
Proof.
  unfold snake_invariant.
  destruct (snake_nodes h hd tl) as [ms |] eqn:Hms; [| discriminate].
  intros [Hb Hd]%andb_prop. apply snake_nodes_spec in Hms.
  split; [reflexivity |]. split; [reflexivity |].
  split; [now exists ms |].
  intros ns Hns. rewrite (snake_deterministic _ _ _ _ _ Hns Hms).
  split.
  - intros n Hn%list_elem_of_In. rewrite forallb_forall in Hb.
    apply in_bounds_spec. auto.
  - apply NoDup_cells_pairwise. now apply bool_decide_eq_true in Hd.
Qed.

Lemma snake_invariant_bounds_and_distinct_witness :
  snake_invariant initial_heap 4096 4128 = true /\
  BOARD_WIDTH = 80 /\ BOARD_HEIGHT = 25 /\
  (exists ns, snake initial_heap 4096 4128 ns) /\
  forall ns, snake initial_heap 4096 4128 ns ->
    (forall n, n ∈ ns ->
       0 <= x n < BOARD_WIDTH /\ 0 <= y n < BOARD_HEIGHT) /\
    (forall i j n m, i <> j -> ns !! i = Some n -> ns !! j = Some m ->
       (x n, y n) <> (x m, y m)).
Proof.
  split; [vm_compute; reflexivity |].
  apply (snake_invariant_bounds_and_distinct initial_heap 4096 4128).
  vm_compute; reflexivity.
Defined.

(** The traversal on concrete stores: the initial snake, no snake at
    all, a tail that is never reached, and a cycle that misses the
    tail. *)
Example snake_nodes_initial :
  snake_nodes initial_heap 4096 4128 =
    Some [ {| x := 40; y := 12; next := 4112 |};
           {| x := 39; y := 12; next := 4128 |};
           {| x := 38; y := 12; next := NULL |} ].
Proof. vm_compute. reflexivity. Qed.

Example snake_nodes_empty : snake_nodes ∅ NULL NULL = Some [].
Proof. reflexivity. Qed.

Example snake_nodes_unreachable_tail :
  snake_nodes initial_heap 4112 4096 = None.
Proof. vm_compute. reflexivity. Qed.

Example snake_nodes_cycle :
  snake_nodes
    (<[ 16 := {| x := 1; y := 1; next := 32 |} ]>
     (<[ 32 := {| x := 2; y := 1; next := 16 |} ]> ∅)) 16 48 = None.
Proof. vm_compute. reflexivity. Qed.

(** Two nodes on one cell, or a node off the board, break the snake
    invariant. *)
Example snake_invariant_overlap :
  snake_invariant
    (<[ 16 := {| x := 1; y := 1; next := 32 |} ]>
     (<[ 32 := {| x := 1; y := 1; next := NULL |} ]> ∅)) 16 32 = false.
Proof. vm_compute. reflexivity. Qed.

Example snake_invariant_off_board :
  snake_invariant (<[ 16 := {| x := 80; y := 0; next := NULL |} ]> ∅) 16 16 = false.
Proof. vm_compute. reflexivity. Qed.

(** ** The shape of the records *)

(** A record with a member such as
    [long long target_frame_time; /* Target frame time in nanoseconds */]
    would track a target frame duration. *)
Example tracks_target_duration_example :
  tracks_target_duration
    [ ("start_time", "Start time in nanoseconds");
      ("target_frame_time", "Target frame time in nanoseconds") ].
Proof.
  exists ("target_frame_time", "Target frame time in nanoseconds").
  split; [| split; reflexivity].
  apply elem_of_cons. right. apply elem_of_cons. now left.
Qed.



(** C4: the snake body is a singly linked list.  A [SnakeNode] is
    exactly an integer [x], an integer [y] and one link [next] to a
    [SnakeNode], with no other link, and the [GameState] holds a [head]
    and a [tail] reference to such nodes. *)
Theorem SnakeNode_singly_linked :
  s_fields SnakeNode_decl =
    [ Field "x" Tint; Field "y" Tint;
      Field "next" (Tptr_struct "SnakeNode") ] /\
  links_to "SnakeNode" SnakeNode_decl = ["next"] /\
  field_type GameState_decl "head" = Some (Tptr_struct "SnakeNode") /\
  field_type GameState_decl "tail" = Some (Tptr_struct "SnakeNode") /\
  links_to "SnakeNode" GameState_decl = ["head"; "tail"] /\
  forall n : SnakeNode, n = {| x := x n; y := y n; next := next n |}.
Proof.
  repeat split. now intros [].
Qed.

(** C5: the [GameState] record owns a character grid of
    [BOARD_HEIGHT = 25] rows by [BOARD_WIDTH = 80] columns, whatever the
    state, together with the integer members [score], [direction],
    [speed] and [paused]. *)
Theorem GameState_owns_board :
  BOARD_HEIGHT = 25 /\ BOARD_WIDTH = 80 /\
  field_type GameState_decl "board" =
    Some (Tarray (Tarray Tchar BOARD_WIDTH) BOARD_HEIGHT) /\
  cells (Tarray (Tarray Tchar BOARD_WIDTH) BOARD_HEIGHT) = 25 * 80 /\
  field_type GameState_decl "score" = Some Tint /\
  field_type GameState_decl "direction" = Some Tint /\
  field_type GameState_decl "speed" = Some Tint /\
  field_type GameState_decl "paused" = Some Tint /\
  forall g : GameState,
    List.length (vec_to_list (board g)) = 25%nat /\
    forall row, row ∈ vec_to_list (board g) ->
      List.length (vec_to_list row) = 80%nat.
Proof.
  repeat split; try (intros; apply length_vec_to_list).
Qed.

(** C6: the [MemoryPool] record is a start pointer, an end pointer, one
    current (bump) pointer and an integer count of available bytes, and
    nothing else: no link to a node or to a free list and no table of
    allocations. *)
Theorem MemoryPool_bump_region_only :
  s_fields MemoryPool_decl =
    [ Field "pool_start" Tptr_void; Field "pool_end" Tptr_void;
      Field "current" Tptr_void; Field "available" Tint ] /\
  fields_of_type Tptr_void MemoryPool_decl =
    ["pool_start"; "pool_end"; "current"] /\
  fields_of_type Tint MemoryPool_decl = ["available"] /\
  (forall tag, links_to tag MemoryPool_decl = []) /\
  (forall f, f ∈ s_fields MemoryPool_decl -> cells (f_type f) = 1) /\
  forall p : MemoryPool,
    p = {| pool_start := pool_start p; pool_end := pool_end p;
           current := current p; available := available p |}.
Proof.
  split; [reflexivity |]. split; [reflexivity |]. split; [reflexivity |].
  split; [reflexivity |]. split.
  - intros f Hf. simpl in Hf.
    repeat (apply elem_of_cons in Hf as [Hf | Hf]; [now subst f |]).
    now apply elem_of_nil in Hf.
  - now intros [].
Qed.

(** ** The constants *)

(** C7: the key constants are the raw byte codes of their keys:
    [KEY_SPACE = 32] is the space character, [KEY_Q = 113] is ['q'],
    [KEY_ESC = 27] is the escape byte, and [KEY_UP = 65],
    [KEY_DOWN = 66], [KEY_LEFT = 68], [KEY_RIGHT = 67] are the codes of
    ['A'], ['B'], ['D'], ['C'], the final bytes of the ANSI arrow-key
    escape sequences. *)
Theorem key_constants_are_byte_codes :
  (KEY_SPACE = 32 /\ KEY_SPACE = byte_code " ") /\
  (KEY_Q = 113 /\ KEY_Q = byte_code "q") /\
  (KEY_ESC = 27 /\ KEY_ESC = byte_code ESC) /\
  (KEY_UP = 65 /\ KEY_UP = byte_code "A") /\
  (KEY_DOWN = 66 /\ KEY_DOWN = byte_code "B") /\
  (KEY_LEFT = 68 /\ KEY_LEFT = byte_code "D") /\
  (KEY_RIGHT = 67 /\ KEY_RIGHT = byte_code "C") /\
  forall a : arrow,
    exists body c,
      arrow_sequence a = String ESC (String "[" body) /\
      final_byte (arrow_sequence a) = Some c /\
      arrow_key a = byte_code c.
Proof.
  repeat split.
  intros []; eexists _, _; repeat split.
Qed.

(** C8: each of the eight [COLOR_*] constants is an ANSI escape
    sequence: it begins with the escape byte 0x1B followed by ['['] and
    ends with the terminator ['m']. *)
Theorem color_constants_are_ansi_sequences :
  byte_code ESC = 0x1B /\
  ansi_escape_sequence COLOR_RESET /\
  ansi_escape_sequence COLOR_RED /\
  ansi_escape_sequence COLOR_GREEN /\
  ansi_escape_sequence COLOR_YELLOW /\
  ansi_escape_sequence COLOR_BLUE /\
  ansi_escape_sequence COLOR_MAGENTA /\
  ansi_escape_sequence COLOR_CYAN /\
  ansi_escape_sequence COLOR_WHITE.
Proof.
  split; [reflexivity |].
  repeat split;
    first [ now exists "0" | now exists "31" | now exists "32" | now exists "33"
          | now exists "34" | now exists "35" | now exists "36" | now exists "37" ].
Qed.

(** What [ansi_escape_sequence] says of a string, byte by byte. *)
Lemma ansi_escape_sequence_bytes s :
  ansi_escape_sequence s ->
  (exists rest, s = String ESC (String "[" rest)) /\
  final_byte s = Some "m"%char.
Proof.
  intros [body ->]. split; [eauto |].
  change (final_byte (String "[" (body +:+ "m")) = Some "m"%char).
  assert (forall c t, final_byte (String c (t +:+ "m")) = Some "m"%char) as H.
  { intros c t. revert c. induction t as [| d t IH]; intros c; [reflexivity |].
    change (final_byte (String d (t +:+ "m")) = Some "m"%char). apply IH. }
  apply H.
Qed.

(** C9: the byte buffer of an [InputBuffer] has room for exactly 256
    bytes, fewer than [BUFFER_SIZE = 8192]; no [InputBuffer] holds the
    bytes of a read that fills [BUFFER_SIZE]. *)
Theorem InputBuffer_smaller_than_BUFFER_SIZE :
  field_type InputBuffer_decl "buffer" = Some (Tarray Tchar 256) /\
  BUFFER_SIZE = 8192 /\
  cells (Tarray Tchar 256) < BUFFER_SIZE /\
  (forall b : InputBuffer,
     Z.of_nat (List.length (vec_to_list (buffer b))) = 256) /\
  forall (b : InputBuffer) (data : list ascii),
    256 < Z.of_nat (List.length data) <= BUFFER_SIZE ->
    vec_to_list (buffer b) <> data.
Proof.
  split; [reflexivity |]. split; [reflexivity |]. split; [reflexivity |].
  split.
  - intros b. now rewrite length_vec_to_list.
  - intros b data Hlen Heq. rewrite <- Heq, length_vec_to_list in Hlen. lia.
Qed.

(** C10: the four direction codes are pairwise distinct and the five
    state codes are pairwise distinct, so a stored direction or state
    value stands for at most one direction or state. *)
Theorem direction_and_state_codes_distinct :
  ([DIR_UP; DIR_DOWN; DIR_LEFT; DIR_RIGHT] = [0; 1; 2; 3] /\
   NoDup [DIR_UP; DIR_DOWN; DIR_LEFT; DIR_RIGHT]) /\
  ([STATE_MENU; STATE_PLAYING; STATE_PAUSED; STATE_GAME_OVER; STATE_EXIT]
     = [0; 1; 2; 3; 4] /\
   NoDup [STATE_MENU; STATE_PLAYING; STATE_PAUSED; STATE_GAME_OVER; STATE_EXIT]) /\
  (forall d1 d2, direction_code d1 = direction_code d2 -> d1 = d2) /\
  (forall s1 s2, state_code s1 = state_code s2 -> s1 = s2).
Proof.
  split; [split; [reflexivity | compute_done] |].
  split; [split; [reflexivity | compute_done] |].
  split.
  - intros [] []; simpl; intros H; first [reflexivity | discriminate H].
  - intros [] []; simpl; intros H; first [reflexivity | discriminate H].
Qed.

(** Reading a code back gives the one name it stands for, and only the
    codes of the header are read back at all. *)
Lemma direction_of_code d : direction_of (direction_code d) = Some d.
Proof. now destruct d. Qed.

Lemma direction_of_Some v d : direction_of v = Some d -> direction_code d = v.
Proof.
  unfold direction_of. intros H. apply find_some in H as [_ H].
  now apply bool_decide_eq_true in H.
Qed.

Lemma state_of_code s : state_of (state_code s) = Some s.
Proof. now destruct s. Qed.

Lemma state_of_Some v s : state_of v = Some s -> state_code s = v.
Proof.
  unfold state_of. intros H. apply find_some in H as [_ H].
  now apply bool_decide_eq_true in H.
Qed.

Lemma InputBuffer_smaller_than_BUFFER_SIZE_witness :
  256 < Z.of_nat (List.length (replicate (Z.to_nat BUFFER_SIZE) "a"%char)) <= BUFFER_SIZE /\
  vec_to_list (buffer empty_input_buffer) <> replicate (Z.to_nat BUFFER_SIZE) "a"%char.
Proof.
  assert (256 < Z.of_nat (List.length (replicate (Z.to_nat BUFFER_SIZE) "a"%char)) <= BUFFER_SIZE) as H.
  { rewrite length_replicate. unfold BUFFER_SIZE. lia. }
  split; [exact H |].
  exact (proj2 (proj2 (proj2 (proj2 InputBuffer_smaller_than_BUFFER_SIZE)))
           empty_input_buffer (replicate (Z.to_nat BUFFER_SIZE) "a"%char) H).
Defined.

Lemma direction_and_state_codes_distinct_witness :
  (direction_code Left = direction_code Left /\ Left = Left) /\
  (state_code Paused = state_code Paused /\ Paused = Paused).
Proof.
  split; (split; [reflexivity |]).
  - exact (proj1 (proj2 (proj2 direction_and_state_codes_distinct))
             Left Left eq_refl).
  - exact (proj2 (proj2 (proj2 direction_and_state_codes_distinct))
             Paused Paused eq_refl).
Defined.

(** ** A consequence of the snake invariant *)

(** Distinct cells of an 80 by 25 board number at most 2000, so a snake
    that satisfies its invariant has at most
    [BOARD_WIDTH * BOARD_HEIGHT] nodes. *)
Lemma cell_index_bound n :
  in_bounds n = true -> (cell_index n < Z.to_nat (BOARD_WIDTH * BOARD_HEIGHT))%nat.
Proof.
  intros Hb%in_bounds_spec. unfold cell_index, BOARD_WIDTH, BOARD_HEIGHT. lia.
Qed.

Lemma cell_index_inj n m :
  in_bounds n = true -> in_bounds m = true ->
  cell_index n = cell_index m -> cell n = cell m.
Proof.
  intros Hn%in_bounds_spec Hm%in_bounds_spec. unfold cell_index, cell, BOARD_WIDTH.
  intros H. apply Z2Nat.inj in H; [| lia | lia].
  f_equal; lia.
Qed.

Lemma snake_invariant_length_le_board h hd tl ns :
  snake_invariant h hd tl = true ->
  snake h hd tl ns ->
  Z.of_nat (List.length ns) <= BOARD_WIDTH * BOARD_HEIGHT.
Proof.
  unfold snake_invariant. intros Hinv Hs.
  apply snake_nodes_spec in Hs. rewrite Hs in Hinv.
  apply andb_prop in Hinv as [Hb Hd].
  rewrite forallb_forall in Hb. apply bool_decide_eq_true in Hd.
  assert (NoDup (cell_index <$> ns)) as Hnd.
  { clear Hs. induction ns as [| n ns IH]; [constructor |].
    rewrite fmap_cons in Hd. apply NoDup_cons in Hd as [Hn Hd].
    rewrite fmap_cons. apply NoDup_cons. split.
    - intros (m & Hm & Hin)%list_elem_of_fmap. apply Hn.
      apply list_elem_of_fmap. exists m. split; [| assumption].
      apply cell_index_inj; [apply Hb; now left | | assumption].
      apply Hb. right. now apply list_elem_of_In.
    - apply IH; [| assumption]. intros m Hm. apply Hb. now right. }
  assert (cell_index <$> ns ⊆+ seq 0 (Z.to_nat (BOARD_WIDTH * BOARD_HEIGHT))) as Hsub.
  { apply NoDup_submseteq; [assumption |].
    intros i (m & -> & Hm)%list_elem_of_fmap. apply elem_of_seq.
    pose proof (cell_index_bound m (Hb m (proj1 (list_elem_of_In _ _) Hm))). lia. }
  apply submseteq_length in Hsub.
  rewrite length_fmap, length_seq in Hsub.
  unfold BOARD_WIDTH, BOARD_HEIGHT in *. lia.
Qed.

(** * Further properties of the constants and the board *)

Import Codes Board.

(** ** Codes that must be told apart *)

(** The seven key codes are pairwise distinct and each is a 7-bit
    byte, so one input byte names at most one key. *)
Theorem key_codes_unambiguous :
  (forall k1 k2, key_code k1 = key_code k2 -> k1 = k2) /\
  (forall k, 0 <= key_code k < 128).
Proof.
  split.
  - intros [] []; simpl; intros H; first [reflexivity | discriminate H].
  - intros []; simpl; unfold KEY_UP, KEY_DOWN, KEY_LEFT, KEY_RIGHT,
      KEY_SPACE, KEY_Q, KEY_ESC; lia.
Qed.

Lemma key_codes_unambiguous_witness :
  key_code KeyLeft = key_code KeyLeft /\ KeyLeft = KeyLeft.
Proof.
  split; [reflexivity |].
  exact (proj1 key_codes_unambiguous KeyLeft KeyLeft eq_refl).
Defined.

(** The five game characters are pairwise distinct printable ASCII
    characters, so a character of the board names at most one kind of
    cell and takes one column of the terminal. *)
Theorem game_characters_unambiguous :
  (forall k1 k2, cell_char k1 = cell_char k2 -> k1 = k2) /\
  (forall k, printable (cell_char k) = true).
Proof.
  split.
  - intros [] []; simpl; intros H; first [reflexivity | discriminate H].
  - now intros [].
Qed.

Lemma game_characters_unambiguous_witness :
  cell_char FoodCell = cell_char FoodCell /\ FoodCell = FoodCell.
Proof.
  split; [reflexivity |].
  exact (proj1 game_characters_unambiguous FoodCell FoodCell eq_refl).
Defined.

(** The eight color strings are pairwise distinct, and each is the
    escape byte, ['['], a non-empty run of decimal digits and ['m']:
    a graphic-rendition sequence with one numeric parameter. *)
Theorem color_sequences_distinct_numeric :
  (forall c1 c2, color_sequence c1 = color_sequence c2 -> c1 = c2) /\
  (forall c, exists body,
     color_sequence c = String ESC (String "[" (body +:+ "m")) /\
     body <> "" /\
     forallb is_digit (String.list_ascii_of_string body) = true).
Proof.
  split.
  - intros [] []; simpl; intros H; first [reflexivity | discriminate H].
  - intros [];
      first [ now exists "0" | now exists "31" | now exists "32"
            | now exists "33" | now exists "34" | now exists "35"
            | now exists "36" | now exists "37" ].
Qed.

Lemma color_sequences_distinct_numeric_witness :
  color_sequence ColorCyan = color_sequence ColorCyan /\ ColorCyan = ColorCyan.
Proof.
  split; [reflexivity |].
  exact (proj1 color_sequences_distinct_numeric ColorCyan ColorCyan eq_refl).
Defined.

(** The direction codes and the state codes are not distinct from each
    other: every direction code is also the code of a game state, and
    [STATE_EXIT] is the only state code that is no direction code.  The
    [direction] and [state] members have the same type [int], so the
    value alone does not tell which of the two it is. *)
Theorem direction_codes_are_state_codes :
  (forall d, exists s, state_code s = direction_code d) /\
  (forall s, s <> Exit -> exists d, direction_code d = state_code s) /\
  (forall d, direction_code d <> STATE_EXIT) /\
  (field_type GameState_decl "direction" = Some Tint /\
   field_type GameState_decl "state" = Some Tint).
Proof.
  split; [| split; [| split]].
  - intros []; [now exists Menu | now exists Playing
               | now exists Paused | now exists GameOver].
  - intros [] Hs; [now exists Up | now exists Down | now exists Left
                  | now exists Right | congruence].
  - now intros [].
  - split; reflexivity.
Qed.

Lemma direction_codes_are_state_codes_witness :
  Paused <> Exit /\ exists d, direction_code d = state_code Paused.
Proof.
  assert (Paused <> Exit) as H by discriminate.
  split; [exact H |].
  exact (proj1 (proj2 direction_codes_are_state_codes) Paused H).
Defined.

(** ** The board and the coordinates *)

(** The board has a cell at column [cx] of row [cy] exactly when
    [0 <= cx < BOARD_WIDTH] and [0 <= cy < BOARD_HEIGHT], in every game
    state. *)
Theorem board_cell_defined_iff_on_board (g : GameState) (cx cy : Z) :
  is_Some (board_cell g cx cy) <->
  0 <= cx < BOARD_WIDTH /\ 0 <= cy < BOARD_HEIGHT.
Proof.
  unfold board_cell.
  destruct ((0 <=? cx) && (0 <=? cy)) eqn:Hnn.
  - apply andb_prop in Hnn as [Hx%Z.leb_le Hy%Z.leb_le].
    destruct (vec_to_list (board g) !! Z.to_nat cy) as [row |] eqn:Hrow.
    + apply lookup_lt_Some in Hrow. rewrite length_vec_to_list in Hrow.
      rewrite lookup_lt_is_Some, length_vec_to_list. lia.
    + apply lookup_ge_None in Hrow. rewrite length_vec_to_list in Hrow.
      split; [intros [? [=]] | lia].
  - apply andb_false_iff in Hnn as [Hx%Z.leb_gt | Hy%Z.leb_gt];
      (split; [intros [? [=]] | lia]).
Qed.

(** A snake node is within the bounds of the board exactly when the
    board has a cell for it. *)
Lemma in_bounds_iff_board_cell (g : GameState) (n : SnakeNode) :
  in_bounds n = true <-> is_Some (board_cell g (x n) (y n)).
Proof.
  rewrite board_cell_defined_iff_on_board, in_bounds_spec.
  unfold BOARD_WIDTH, BOARD_HEIGHT. reflexivity.
Qed.

(** Nodes that lie on the board on pairwise distinct cells number at
    most as many as the [board] member has cells,
    [BOARD_WIDTH * BOARD_HEIGHT = 2000]. *)
Theorem board_room_for_nodes (ns : list SnakeNode) :
  (forall n, n ∈ ns -> 0 <= x n < BOARD_WIDTH /\ 0 <= y n < BOARD_HEIGHT) ->
  NoDup (cell <$> ns) ->
  exists t, field_type GameState_decl "board" = Some t /\
            cells t = 2000 /\
            Z.of_nat (List.length ns) <= cells t.
Proof.
  intros Hb Hd. eexists. split; [reflexivity |]. split; [reflexivity |].
  assert (forall n, n ∈ ns -> in_bounds n = true) as Hib.
  { intros n Hn. apply in_bounds_spec. apply Hb in Hn.
    unfold BOARD_WIDTH, BOARD_HEIGHT in Hn. exact Hn. }
  assert (NoDup (cell_index <$> ns)) as Hnd.
  { clear Hb. induction ns as [| n ns IH]; [constructor |].
    rewrite fmap_cons in Hd. apply NoDup_cons in Hd as [Hn Hd].
    rewrite fmap_cons. apply NoDup_cons. split.
    - intros (m & Hm & Hin)%list_elem_of_fmap. apply Hn.
      apply list_elem_of_fmap. exists m. split; [| assumption].
      apply cell_index_inj; [apply Hib; now left | | assumption].
      apply Hib. now right.
    - apply IH; [assumption |]. intros m Hm. apply Hib. now right. }
  assert (cell_index <$> ns ⊆+ seq 0 (Z.to_nat (BOARD_WIDTH * BOARD_HEIGHT))) as Hsub.
  { apply NoDup_submseteq; [assumption |].
    intros i (m & -> & Hm)%list_elem_of_fmap. apply elem_of_seq.
    pose proof (cell_index_bound m (Hib m Hm)). lia. }
  apply submseteq_length in Hsub.
  rewrite length_fmap, length_seq in Hsub.
  unfold BOARD_WIDTH, BOARD_HEIGHT in *. cbn [cells f_type]. lia.
Qed.

Lemma board_room_for_nodes_witness :
  exists t, field_type GameState_decl "board" = Some t /\
            cells t = 2000 /\
            Z.of_nat (List.length
              [ {| x := 40; y := 12; next := 4112 |};
                {| x := 39; y := 12; next := 4128 |};
                {| x := 38; y := 12; next := NULL |} ]) <= cells t.
Proof.
  apply (board_room_for_nodes
           [ {| x := 40; y := 12; next := 4112 |};
             {| x := 39; y := 12; next := 4128 |};
             {| x := 38; y := 12; next := NULL |} ]).
  - intros n Hn.
    repeat (apply elem_of_cons in Hn as [Hn | Hn];
            [subst n; unfold BOARD_WIDTH, BOARD_HEIGHT; simpl; lia |]).
    now apply elem_of_nil in Hn.
  - compute_done.
Defined.
